(** * sui::randomness — a shallow embedding of [randomness.move]

    The Move module [sui::randomness] defines an on-ledger object that is
    created unset and later filled, once, with the hash of a threshold-BLS
    signature over the message ["randomness" || epoch || id].

    Move values are embedded as follows:
    - [u8] is [Byte.byte], [vector<u8>] is [list byte];
    - [u64] is [N] (the module performs no arithmetic on it; the range
      [< 2^64] is stated where an encoding depends on it);
    - a struct is a record, [option::Option] is [option];
    - a function taking [&mut] runs in a small state-and-abort monad whose
      state holds the referenced object; [assert!(c, code)] aborts;
    - native functions are parameters of the development. *)

From Stdlib Require Import List NArith PeanoNat Lia Bool.
From Stdlib.Strings Require Import String Ascii Byte.
Import ListNotations.

Local Open Scope N_scope.

(** ** Primitive Move types *)

Definition u8 := byte.
Definition u64 := N.
Definition vector_u8 := list byte.

Definition U64_MAX_PLUS_1 : N := 2 ^ 64.

(** The byte holding [n mod 256]. *)
Definition byte_of_N (n : N) : byte :=
  match Byte.of_N (n mod 256) with
  | Some b => b
  | None => x00
  end.

(** [b"..."] byte-string literals: one byte per character. *)
Definition byte_string (s : string) : vector_u8 :=
  map byte_of_ascii (list_ascii_of_string s).

(** ** sui::bcs

    [sui::bcs] is not among the sources at hand; its [to_bytes] hands the
    value to the Move standard library's serializer for BCS (Binary Canonical
    Serialization).  BCS fixes the layout of the two types the module
    serializes: a [u64] is its eight bytes, least significant first, and an
    [address] is its raw bytes with no length prefix. *)
Module bcs.

Fixpoint le_bytes (width : nat) (x : N) : vector_u8 :=
  match width with
  | O => []
  | S w => byte_of_N (x mod 256) :: le_bytes w (x / 256)
  end.

Definition to_bytes_u64 (x : u64) : vector_u8 := le_bytes 8 x.

Definition to_bytes_address (a : vector_u8) : vector_u8 := a.

(** Inverse of [le_bytes], used to show that the encoding loses nothing. *)
Fixpoint le_value (bs : vector_u8) : N :=
  match bs with
  | [] => 0
  | b :: rest => Byte.to_N b + 256 * le_value rest
  end.

End bcs.

(** ** sui::object

    Modelled from the spec: [sui::object] is not among the sources at hand.
    Per the spec an object's identity is assigned by the runtime, never
    changes, and has a fixed-width byte encoding.  An [ID] wraps the
    address-sized bytes of the identity; a [UID] wraps the [ID] of the object
    that owns it. *)
Module object.

Definition address := vector_u8.

Record ID := mkID { bytes : address }.
Record UID := mkUID { uid_id : ID }.

(** Modelled from the spec: [object::id_to_bytes], the fixed-width encoding
    of an identity, here the BCS bytes of the inner address. *)
Definition id_to_bytes (i : ID) : vector_u8 := bcs.to_bytes_address (bytes i).

(** Modelled from the spec: [object::delete], which deallocates the
    identity; the runtime records the deletion of the [ID] it carried. *)
Definition delete (u : UID) : ID := uid_id u.

End object.

(** ** Execution monad for functions that take [&mut self] *)
Module exec.

Inductive Outcome (A : Type) :=
| Done (a : A)
| Aborted (code : u64).
Arguments Done {A} a.
Arguments Aborted {A} code.

Definition M (S A : Type) := S -> Outcome A * S.

Definition ret {S A} (a : A) : M S A := fun s => (Done a, s).

Definition bind {S A B} (m : M S A) (k : A -> M S B) : M S B :=
  fun s =>
    match m s with
    | (Done a, s') => k a s'
    | (Aborted c, s') => (Aborted c, s')
    end.

Definition abort {S A} (code : u64) : M S A := fun s => (Aborted code, s).

(** [assert!(cond, code)] *)
Definition assert {S} (cond : bool) (code : u64) : M S unit :=
  if cond then ret tt else abort code.

End exec.

Notation "x <- m ;; k" := (exec.bind m (fun x => k))
  (at level 61, m at next level, right associativity).
Notation "m ;;; k" := (exec.bind m (fun _ => k))
  (at level 61, right associativity).

(** ** sui::transfer

    Modelled from the spec: [sui::transfer] is not among the sources at hand.
    Per the spec, [transfer] hands exclusive ownership to one address and
    [share_object] converts the object into shared ownership; both are pure
    delegations to the ledger runtime, which stores the object it is given
    under the new owner. *)
Module sui_transfer.

Inductive Owner :=
| AddressOwner (a : object.address)
| Shared.

Record Stored (O : Type) := mkStored { owner : Owner; contents : O }.
Arguments mkStored {O} owner contents.
Arguments owner {O} _.
Arguments contents {O} _.

(** Modelled from the spec: [transfer::transfer], which hands exclusive
    ownership of the object to one address. *)
Definition transfer {O} (obj : O) (to : object.address) : Stored O :=
  mkStored (AddressOwner to) obj.

(** Modelled from the spec: [transfer::share_object], which converts the
    object into shared ownership. *)
Definition share_object {O} (obj : O) : Stored O :=
  mkStored Shared obj.

End sui_transfer.

(** ** The wire contract, in the spec's terms

    Fixed-width encodings of a 64-bit number written position by position:
    byte [i] of the little-endian form is [x / 256^i mod 256]; the big-endian
    form lists the same bytes from the most significant down. *)
Module wire.

Definition digit (x : N) (i : nat) : byte := byte_of_N (x / 256 ^ N.of_nat i).

Definition le64 (x : N) : vector_u8 := map (digit x) (seq 0 8).

Definition be64 (x : N) : vector_u8 := map (digit x) (rev (seq 0 8)).

End wire.

(** ** Deterministic stand-ins for the native functions and the runtime

    A fake signer whose signature on [(epoch, msg)] is the epoch followed by
    the message, a fake 32-byte digest, and a runtime context that allocates
    identities longer than any it has handed out. *)
Module fake.

Fixpoint bytes_eqb (a b : vector_u8) : bool :=
  match a, b with
  | [], [] => true
  | x :: a', y :: b' => Byte.eqb x y && bytes_eqb a' b'
  | _, _ => false
  end.

Definition tbls_sign (epoch : u64) (msg : vector_u8) : vector_u8 :=
  bcs.to_bytes_u64 epoch ++ msg.

Definition verify_tbls_signature (epoch : u64) (msg sig : vector_u8) : bool :=
  bytes_eqb sig (tbls_sign epoch msg).

Definition sha3_256 (data : vector_u8) : vector_u8 :=
  firstn 32 (data ++ repeat x00 32).

Record TxContext := mkTxContext {
  epoch : u64;
  ids_created : list object.ID
}.

Definition fresh_address (ids : list object.ID) : object.address :=
  repeat x00 (S (list_max (map (fun i => List.length (object.bytes i)) ids))).

Definition object_new (ctx : TxContext) : object.UID * TxContext :=
  let i := object.mkID (fresh_address (ids_created ctx)) in
  (object.mkUID i, mkTxContext (epoch ctx) (i :: ids_created ctx)).

(** A marker type with a single value, to fix [T]. *)
Inductive Witness := WITNESS.

(** The identity [0x00..2a] and an address to transfer to. *)
Definition id42 : object.ID := object.mkID (repeat x00 19 ++ [x2a]).
Definition id43 : object.ID := object.mkID (repeat x00 19 ++ [x2b]).
Definition alice : object.address := repeat x00 19 ++ [xa1].

End fake.

(** ** sui::randomness *)
Module randomness.

Import exec.

(** Set is called with an invalid signature. *)
Definition EInvalidSignature : u64 := 0.
(** Already set object cannot be set again. *)
Definition EAlreadySet : u64 := 1.

(** All signatures are prefixed with Domain. *)
Definition Domain : vector_u8 := byte_string "randomness".

(** [struct Randomness<phantom T> has key]. *)
Module Randomness.
Record t (T : Type) := mk {
  id : object.UID;
  epoch : u64;
  value : option vector_u8
}.
Arguments mk {T} id epoch value.
Arguments id {T} _.
Arguments epoch {T} _.
Arguments value {T} _.
End Randomness.

(** [object::id(self)]: the [ID] inside the object's [UID]. *)
Definition object_id {T} (self : Randomness.t T) : object.ID :=
  object.uid_id (Randomness.id self).

Definition is_none {A} (o : option A) : bool :=
  match o with
  | None => true
  | Some _ => false
  end.

Definition to_bytes (domain : vector_u8) (epoch : u64) (id : object.ID)
  : vector_u8 :=
  let buffer : vector_u8 := [] in
  let domain := domain in
  (* All elements below are of fixed sizes. *)
  let buffer := buffer ++ domain in
  let buffer := buffer ++ bcs.to_bytes_u64 epoch in
  let buffer := buffer ++ object.id_to_bytes id in
  buffer.

Definition transfer {T} (self : Randomness.t T) (to : object.address)
  : sui_transfer.Stored (Randomness.t T) :=
  sui_transfer.transfer self to.

Definition share_object {T} (self : Randomness.t T)
  : sui_transfer.Stored (Randomness.t T) :=
  sui_transfer.share_object self.

(** Delete the object. *)
Definition destroy {T} (r : Randomness.t T) : object.ID :=
  let '(Randomness.mk id _ _) := r in
  object.delete id.

(** Read the epoch of the object. *)
Definition epoch {T} (self : Randomness.t T) : u64 :=
  Randomness.epoch self.

(** Read the current value of the object. *)
Definition value {T} (self : Randomness.t T) : option vector_u8 :=
  Randomness.value self.

(** Calls into native code, in the order they are made. *)
Inductive NativeCall :=
| CallVerifyTbls (epoch : u64) (msg sig : vector_u8)
| CallSha3_256 (data : vector_u8).

(** What a function holding [self : &mut Randomness<T>] can touch. *)
Record Frame (T : Type) := mkFrame {
  self : Randomness.t T;
  natives : list NativeCall
}.
Arguments mkFrame {T} self natives.
Arguments self {T} _.
Arguments natives {T} _.

Definition read_self {T} : M (Frame T) (Randomness.t T) :=
  fun f => (Done (self f), f).

(** [self.value = v] *)
Definition write_value {T} (v : option vector_u8) : M (Frame T) unit :=
  fun f =>
    let s := self f in
    (Done tt,
     mkFrame (Randomness.mk (Randomness.id s) (Randomness.epoch s) v)
             (natives f)).

Definition enter {T} (r : Randomness.t T) : Frame T := mkFrame r [].

(** *** The lifetime of one object

    Between its creation and its deletion an object is either still held
    by the transaction that created it or stored by the ledger under an
    owner.  Each operation of the module is one step; a transaction that
    aborts leaves the ledger as it found it. *)
Inductive Life (T : Type) :=
| Live (owner : option sui_transfer.Owner) (r : Randomness.t T)
| Destroyed (id : object.ID).
Arguments Live {T} owner r.
Arguments Destroyed {T} id.

Inductive Op :=
| OpTransfer (to : object.address)
| OpShareObject
| OpSet (sig : vector_u8)
| OpDestroy
| OpEpoch
| OpValue.

Definition store {T} (s : sui_transfer.Stored (Randomness.t T)) : Life T :=
  Live (Some (sui_transfer.owner s)) (sui_transfer.contents s).

Definition life_value {T} (l : Life T) : option (option vector_u8) :=
  match l with
  | Live _ r => Some (Randomness.value r)
  | Destroyed _ => None
  end.

(** A [None -> Some] transition of [value] between consecutive states. *)
Definition fills {T} (a b : Life T) : bool :=
  match life_value a, life_value b with
  | Some None, Some (Some _) => true
  | _, _ => false
  end.

Fixpoint count_fills {T} (h : list (Life T)) : nat :=
  match h with
  | a :: (b :: _) as rest => (if fills a b then 1 else 0) + count_fills rest
  | _ => 0
  end.

Section Natives.

(** Verify signature sig on message "randomness":epoch:id *)
Variable native_verify_tbls_signature : u64 -> vector_u8 -> vector_u8 -> bool.

(** Helper functions to sign on messages. *)
Variable native_tbls_sign : u64 -> vector_u8 -> vector_u8.

(** [std::hash::sha3_256] *)
Variable sha3_256 : vector_u8 -> vector_u8.

(** The ledger runtime: [sui::tx_context] and [object::new], neither among
    the sources at hand.  The context gives the current epoch and
    allocates identities. *)
Variable TxContext : Type.
Variable tx_context_epoch : TxContext -> u64.
Variable object_new : TxContext -> object.UID * TxContext.

Definition new {T} (_w : T) (ctx : TxContext) : Randomness.t T * TxContext :=
  let '(uid, ctx) := object_new ctx in
  (Randomness.mk uid (tx_context_epoch ctx) None, ctx).

Definition call_verify {T} (epoch : u64) (msg sig : vector_u8)
  : M (Frame T) bool :=
  fun f =>
    (Done (native_verify_tbls_signature epoch msg sig),
     mkFrame (self f) (natives f ++ [CallVerifyTbls epoch msg sig])).

Definition call_sha3_256 {T} (data : vector_u8) : M (Frame T) vector_u8 :=
  fun f =>
    (Done (sha3_256 data),
     mkFrame (self f) (natives f ++ [CallSha3_256 data])).

(** Owner(s) can use this function for setting the randomness. *)
Definition set {T} (sig : vector_u8) : M (Frame T) unit :=
  s <- read_self ;;
  assert (is_none (Randomness.value s)) EAlreadySet ;;;
  s <- read_self ;;
  let msg := to_bytes Domain (Randomness.epoch s) (object_id s) in
  ok <- call_verify (Randomness.epoch s) msg sig ;;
  assert ok EInvalidSignature ;;;
  hashed <- call_sha3_256 sig ;;
  write_value (Some hashed).


(** [#[test_only]] *)
Definition sign {T} (self : Randomness.t T) : vector_u8 :=
  let msg := to_bytes Domain (Randomness.epoch self) (object_id self) in
  native_tbls_sign (Randomness.epoch self) msg.

Definition step {T} (op : Op) (l : Life T) : Life T :=
  match l with
  | Destroyed i => Destroyed i
  | Live o r =>
      match op with
      | OpTransfer to => store (transfer r to)
      | OpShareObject => store (share_object r)
      | OpSet sig =>
          match set sig (enter r) with
          | (Done _, f) => Live o (self f)
          | (Aborted _, _) => Live o r
          end
      | OpDestroy => Destroyed (destroy r)
      | OpEpoch => let _ := epoch r in Live o r
      | OpValue => let _ := value r in Live o r
      end
  end.

(** The states an object passes through under a sequence of operations. *)
Fixpoint history {T} (ops : list Op) (l : Life T) : list (Life T) :=
  match ops with
  | [] => [l]
  | op :: rest => l :: history rest (step op l)
  end.

(** The state a sequence of operations leaves an object in. *)
Definition run {T} (ops : list Op) (l : Life T) : Life T :=
  fold_left (fun l op => step op l) ops l.

(** Objects that can arise: created by [new], then operated on. *)
Inductive reachable {T} : Life T -> Prop :=
| reach_new : forall (w : T) ctx, reachable (Live None (fst (new w ctx)))
| reach_step : forall op l, reachable l -> reachable (step op l).


End Natives.

End randomness.

(** ** A worked scenario

    The object [O] with id 42 created at epoch 7, a second object [O2] with
    id 43 at the same epoch, and the fake signer's signature for [O]. *)
Module scenario.

Import randomness.

Definition O : Randomness.t fake.Witness :=
  Randomness.mk (object.mkUID fake.id42) 7 None.

Definition O2 : Randomness.t fake.Witness :=
  Randomness.mk (object.mkUID fake.id43) 7 None.

Definition message : vector_u8 := to_bytes Domain 7 fake.id42.

Definition sig : vector_u8 :=
  sign fake.tbls_sign O.

Definition O_set : Randomness.t fake.Witness :=
  Randomness.mk (object.mkUID fake.id42) 7 (Some (fake.sha3_256 sig)).

Definition ctx7 : fake.TxContext := fake.mkTxContext 7 [].

(** Created at epoch 7 in an empty context, transferred, then set. *)
Definition created : Randomness.t fake.Witness :=
  fst (new fake.TxContext fake.epoch fake.object_new fake.WITNESS ctx7).

Definition created_sig : vector_u8 := sign fake.tbls_sign created.

Definition lifetime : list Op :=
  [ OpTransfer fake.alice; OpValue; OpSet sig;
    OpSet created_sig; OpSet created_sig;
    OpEpoch; OpShareObject; OpDestroy; OpValue ].

Definition transferred_then_set : Life fake.Witness :=
  step fake.verify_tbls_signature fake.sha3_256 (OpSet created_sig)
    (step fake.verify_tbls_signature fake.sha3_256 (OpTransfer fake.alice)
       (Live None created)).

(** Attempts on [O]: a forgery, the signature for [O], and two more. *)
Definition attempts : list vector_u8 := [ [xff]; sig; [x00]; sig ].

(** A second object created in the context the first creation left. *)
Definition ctx7' : fake.TxContext :=
  snd (new fake.TxContext fake.epoch fake.object_new fake.WITNESS ctx7).

Definition created' : Randomness.t fake.Witness :=
  fst (new fake.TxContext fake.epoch fake.object_new fake.WITNESS ctx7').

End scenario.

(** * Properties *)

Import randomness.
Import exec.

Section Properties.

Variable native_verify_tbls_signature : u64 -> vector_u8 -> vector_u8 -> bool.
Variable sha3_256 : vector_u8 -> vector_u8.

(** [sha3_256] returns a 32-byte digest. *)
Hypothesis sha3_256_length : forall data, List.length (sha3_256 data) = 32%nat.

(** The runtime hands out an identity it has not handed out before, records
    it in [allocated], and leaves the epoch alone. *)
Variable TxContext : Type.
Variable tx_context_epoch : TxContext -> u64.
Variable object_new : TxContext -> object.UID * TxContext.
Variable allocated : TxContext -> list object.ID.
Hypothesis object_new_fresh : forall ctx,
  ~ In (object.uid_id (fst (object_new ctx))) (allocated ctx).
Hypothesis object_new_records : forall ctx,
  allocated (snd (object_new ctx)) =
  object.uid_id (fst (object_new ctx)) :: allocated ctx.
Hypothesis object_new_epoch : forall ctx,
  tx_context_epoch (snd (object_new ctx)) = tx_context_epoch ctx.

Local Abbreviation set := (randomness.set native_verify_tbls_signature sha3_256).
Local Abbreviation new := (randomness.new TxContext tx_context_epoch object_new).
Local Abbreviation step := (randomness.step native_verify_tbls_signature sha3_256).
Local Abbreviation history :=
  (randomness.history native_verify_tbls_signature sha3_256).
Local Abbreviation reachable :=
  (randomness.reachable native_verify_tbls_signature sha3_256
                        TxContext tx_context_epoch object_new).

(** *** Byte encodings *)

Lemma byte_of_N_to_N (n : N) : Byte.to_N (byte_of_N n) = n mod 256.
Proof.
  unfold byte_of_N.
  destruct (Byte.of_N (n mod 256)) as [b|] eqn:E.
  - now apply Byte.to_of_N.
  - apply Byte.of_N_None_iff in E.
    pose proof (N.mod_upper_bound n 256). lia.
Qed.

Lemma byte_of_N_mod (n : N) : byte_of_N (n mod 256) = byte_of_N n.
Proof.
  unfold byte_of_N. now rewrite N.Div0.mod_mod.
Qed.

Lemma le_bytes_length (w : nat) (x : N) : List.length (bcs.le_bytes w x) = w.
Proof.
  revert x. induction w as [|w IH]; intro x; simpl; [reflexivity|].
  now rewrite IH.
Qed.

Lemma le_bytes_digits (w : nat) : forall (x : N) (k : nat),
  bcs.le_bytes w (x / 256 ^ N.of_nat k) = map (wire.digit x) (seq k w).
Proof.
  induction w as [|w IH]; intros x k; simpl; [reflexivity|].
  rewrite byte_of_N_mod. unfold wire.digit at 1. f_equal.
  rewrite <- IH. f_equal.
  rewrite N.Div0.div_div. f_equal.
  rewrite Nat2N.inj_succ, N.pow_succ_r'. lia.
Qed.

Lemma to_bytes_u64_le64 (x : u64) : bcs.to_bytes_u64 x = wire.le64 x.
Proof.
  unfold bcs.to_bytes_u64, wire.le64.
  rewrite <- (le_bytes_digits 8 x 0). simpl. now rewrite N.div_1_r.
Qed.

Lemma le_value_le_bytes (w : nat) : forall x : N,
  bcs.le_value (bcs.le_bytes w x) = x mod 256 ^ N.of_nat w.
Proof.
  induction w as [|w IH]; intro x.
  - simpl. now rewrite N.mod_1_r.
  - cbn [bcs.le_bytes bcs.le_value].
    rewrite byte_of_N_to_N, IH, Nat2N.inj_succ, N.pow_succ_r'.
    now rewrite N.Div0.mod_mul_r, N.Div0.mod_mod.
Qed.

Lemma to_bytes_u64_inj (x y : u64) :
  x < U64_MAX_PLUS_1 -> y < U64_MAX_PLUS_1 ->
  bcs.to_bytes_u64 x = bcs.to_bytes_u64 y -> x = y.
Proof.
  intros Hx Hy E. apply (f_equal bcs.le_value) in E.
  unfold bcs.to_bytes_u64 in E. rewrite !le_value_le_bytes in E.
  change (256 ^ N.of_nat 8) with U64_MAX_PLUS_1 in E.
  now rewrite !N.mod_small in E.
Qed.

Lemma app_same_length_inv {A} (a b c d : list A) :
  List.length a = List.length b -> a ++ c = b ++ d -> a = b /\ c = d.
Proof.
  revert b. induction a as [|x a IH]; intros [|y b] L E;
    simpl in *; try discriminate.
  - now split.
  - injection E as -> E. injection L as L.
    destruct (IH b L E) as [-> ->]. now split.
Qed.

Lemma Domain_bytes :
  Domain = [x72; x61; x6e; x64; x6f; x6d; x6e; x65; x73; x73].
Proof. reflexivity. Qed.

Lemma to_bytes_unfold (domain : vector_u8) (e : u64) (i : object.ID) :
  to_bytes domain e i = domain ++ bcs.to_bytes_u64 e ++ object.bytes i.
Proof.
  unfold to_bytes, object.id_to_bytes, bcs.to_bytes_address. simpl.
  now rewrite <- app_assoc.
Qed.

(** The message determines both the epoch and the identity (I3). *)
Lemma to_bytes_inj (e1 e2 : u64) (i1 i2 : object.ID) :
  e1 < U64_MAX_PLUS_1 -> e2 < U64_MAX_PLUS_1 ->
  to_bytes Domain e1 i1 = to_bytes Domain e2 i2 -> e1 = e2 /\ i1 = i2.
Proof.
  intros H1 H2 E. rewrite !to_bytes_unfold in E.
  apply app_inv_head in E.
  apply app_same_length_inv in E.
  - destruct E as [Ee Ei]. split.
    + now apply to_bytes_u64_inj.
    + destruct i1, i2. simpl in Ei. now subst.
  - unfold bcs.to_bytes_u64. now rewrite !le_bytes_length.
Qed.


(** *** The message bound to an object *)

(** C3 (as amended): the message is the ten bytes of the literal
    ["randomness"], then the epoch as eight bytes with the least
    significant byte first (little-endian, as BCS serializes a [u64]),
    then the bytes of the object's id. *)
Theorem to_bytes_layout (e : u64) (i : object.ID) :
  to_bytes Domain e i =
    byte_string "randomness" ++ wire.le64 e ++ object.id_to_bytes i
  /\ List.length (byte_string "randomness") = 10%nat
  /\ List.length (wire.le64 e) = 8%nat
  /\ wire.le64 e =
       [ byte_of_N (e / 256 ^ 0); byte_of_N (e / 256 ^ 1);
         byte_of_N (e / 256 ^ 2); byte_of_N (e / 256 ^ 3);
         byte_of_N (e / 256 ^ 4); byte_of_N (e / 256 ^ 5);
         byte_of_N (e / 256 ^ 6); byte_of_N (e / 256 ^ 7) ].
Proof.
  split; [|split; [|split]].
  - now rewrite to_bytes_unfold, to_bytes_u64_le64.
  - reflexivity.
  - unfold wire.le64. now rewrite length_map, length_seq.
  - reflexivity.
Qed.

(** C7: two objects with different ids are bound to different messages,
    whether or not their epochs agree; the proof splits the two messages
    at the fixed sizes of the domain tag and of the encoded epoch. *)
Theorem to_bytes_distinct_ids {T1 T2} (r1 : Randomness.t T1)
    (r2 : Randomness.t T2) :
  Randomness.id r1 <> Randomness.id r2 ->
  to_bytes Domain (Randomness.epoch r1) (object_id r1) <>
  to_bytes Domain (Randomness.epoch r2) (object_id r2).
Proof.
  intros Hid E. apply Hid. rewrite !to_bytes_unfold in E.
  apply app_inv_head in E.
  apply app_same_length_inv in E.
  - destruct E as [_ Eb]. unfold object_id in Eb.
    destruct (Randomness.id r1) as [[b1]], (Randomness.id r2) as [[b2]].
    simpl in Eb. now subst.
  - unfold bcs.to_bytes_u64. now rewrite !le_bytes_length.
Qed.

(** *** set *)

(** Every run of [set], by cases on the object and on the verifier. *)
Lemma set_cases {T} (sig : vector_u8) (f : Frame T) :
  set sig f =
    let s := self f in
    let msg := to_bytes Domain (Randomness.epoch s) (object_id s) in
    match Randomness.value s with
    | Some _ => (Aborted EAlreadySet, f)
    | None =>
        let called :=
          natives f ++ [CallVerifyTbls (Randomness.epoch s) msg sig] in
        if native_verify_tbls_signature (Randomness.epoch s) msg sig
        then (Done tt,
              mkFrame (Randomness.mk (Randomness.id s) (Randomness.epoch s)
                                     (Some (sha3_256 sig)))
                      (called ++ [CallSha3_256 sig]))
        else (Aborted EInvalidSignature, mkFrame s called)
    end.
Proof.
  unfold randomness.set, bind, read_self, assert, call_verify, call_sha3_256,
    write_value, ret, abort.
  destruct f as [s calls]; simpl.
  destruct (Randomness.value s); simpl; [reflexivity|].
  destruct (native_verify_tbls_signature _ _ sig); reflexivity.
Qed.

(** C1: on an unset object, a signature the verifier accepts for the
    object's epoch and message makes [set] succeed, and the value is then
    [Some] of the 32-byte [sha3_256] digest of the signature; id and epoch
    are as before. *)
Theorem set_stores_digest {T} (r : Randomness.t T) (sig : vector_u8) :
  Randomness.value r = None ->
  native_verify_tbls_signature (Randomness.epoch r)
    (to_bytes Domain (Randomness.epoch r) (object_id r)) sig = true ->
  fst (set sig (enter r)) = Done tt
  /\ value (self (snd (set sig (enter r)))) = Some (sha3_256 sig)
  /\ List.length (sha3_256 sig) = 32%nat
  /\ Randomness.id (self (snd (set sig (enter r)))) = Randomness.id r
  /\ epoch (self (snd (set sig (enter r)))) = Randomness.epoch r.
Proof.
  intros Hv Hok. rewrite set_cases. cbn zeta. unfold enter; cbn [self].
  rewrite Hv, Hok. cbn. auto.
Qed.

(** C4: on an object whose value is present, [set] aborts with
    [EAlreadySet] and the object is field for field what it was. *)
Theorem set_twice_aborts {T} (r : Randomness.t T) (sig v : vector_u8) :
  Randomness.value r = Some v ->
  fst (set sig (enter r)) = Aborted EAlreadySet
  /\ self (snd (set sig (enter r))) = r
  /\ Randomness.id (self (snd (set sig (enter r)))) = Randomness.id r
  /\ epoch (self (snd (set sig (enter r)))) = Randomness.epoch r
  /\ value (self (snd (set sig (enter r)))) = Some v.
Proof.
  intros Hv. rewrite set_cases. cbn zeta. unfold enter; cbn [self].
  rewrite Hv. cbn. auto.
Qed.

(** C5: on an unset object, a signature the verifier rejects makes [set]
    abort with [EInvalidSignature]; the object is unchanged, its value
    still absent, and a later [set] with an accepted signature succeeds. *)
Theorem set_rejected_signature {T} (r : Randomness.t T) (sig : vector_u8) :
  Randomness.value r = None ->
  native_verify_tbls_signature (Randomness.epoch r)
    (to_bytes Domain (Randomness.epoch r) (object_id r)) sig = false ->
  fst (set sig (enter r)) = Aborted EInvalidSignature
  /\ self (snd (set sig (enter r))) = r
  /\ value (self (snd (set sig (enter r)))) = None
  /\ forall sig',
       native_verify_tbls_signature (Randomness.epoch r)
         (to_bytes Domain (Randomness.epoch r) (object_id r)) sig' = true ->
       fst (set sig' (enter (self (snd (set sig (enter r)))))) = Done tt.
Proof.
  intros Hv Hbad.
  assert (E : self (snd (set sig (enter r))) = r
              /\ fst (set sig (enter r)) = Aborted EInvalidSignature).
  { rewrite set_cases. cbn zeta. unfold enter; cbn [self].
    rewrite Hv, Hbad. now split. }
  destruct E as [Eself Efst]. rewrite Eself, Efst.
  split; [reflexivity|]. split; [reflexivity|]. split; [exact Hv|].
  intros sig' Hok. rewrite set_cases. cbn zeta. unfold enter; cbn [self].
  now rewrite Hv, Hok.
Qed.

(** C9: on an object whose value is present, [set] aborts with
    [EAlreadySet] without having called any native function, the verifier
    included, whatever the verifier would have answered; the abort code
    is never [EInvalidSignature]. *)
Theorem set_checks_value_first {T} (f : Frame T) (sig v : vector_u8) :
  Randomness.value (self f) = Some v ->
  fst (set sig f) = Aborted EAlreadySet
  /\ natives (snd (set sig f)) = natives f
  /\ (native_verify_tbls_signature (Randomness.epoch (self f))
        (to_bytes Domain (Randomness.epoch (self f)) (object_id (self f)))
        sig = false ->
      fst (set sig f) <> Aborted EInvalidSignature).
Proof.
  intros Hv. rewrite set_cases. cbn zeta. rewrite Hv. cbn.
  split; [reflexivity|]. split; [reflexivity|]. discriminate.
Qed.


(** *** new, transfer, share_object *)

(** C6: [new] has no abort path; for any marker value and any context it
    returns an object whose id is the one the runtime allocates in this
    call (not handed out before, recorded as handed out afterwards),
    whose epoch is the context's current epoch, and whose value is
    absent. *)
Theorem new_fresh_unset {T} (w : T) (ctx : TxContext) :
  exists r ctx',
    new w ctx = (r, ctx')
    /\ Randomness.id r = fst (object_new ctx)
    /\ ~ In (object_id r) (allocated ctx)
    /\ allocated ctx' = object_id r :: allocated ctx
    /\ epoch r = tx_context_epoch ctx
    /\ value r = None.
Proof.
  unfold randomness.new.
  pose proof (object_new_fresh ctx) as Hfresh.
  pose proof (object_new_records ctx) as Hrec.
  pose proof (object_new_epoch ctx) as Hep.
  destruct (object_new ctx) as [uid ctx1]. cbn [fst snd] in *.
  exists (Randomness.mk uid (tx_context_epoch ctx1) None), ctx1.
  unfold object_id, epoch, value. cbn [Randomness.id Randomness.epoch
    Randomness.value].
  auto 7.
Qed.

(** C8: [transfer] and [share_object] hand the runtime the object they
    were given: id, epoch and value are untouched, and only the owner is
    decided (the recipient address, or shared). *)
Theorem transfer_share_keep_fields {T} (r : Randomness.t T)
    (to : object.address) :
  epoch (sui_transfer.contents (transfer r to)) = epoch r
  /\ value (sui_transfer.contents (transfer r to)) = value r
  /\ Randomness.id (sui_transfer.contents (transfer r to)) = Randomness.id r
  /\ sui_transfer.owner (transfer r to) = sui_transfer.AddressOwner to
  /\ epoch (sui_transfer.contents (share_object r)) = epoch r
  /\ value (sui_transfer.contents (share_object r)) = value r
  /\ Randomness.id (sui_transfer.contents (share_object r)) = Randomness.id r
  /\ sui_transfer.owner (share_object r) = sui_transfer.Shared.
Proof.
  unfold transfer, share_object, sui_transfer.transfer,
    sui_transfer.share_object. cbn [sui_transfer.contents sui_transfer.owner].
  auto 9.
Qed.

(** *** The value over an object's lifetime *)

Lemma step_live_cases {T} (op : Op) (o : option sui_transfer.Owner)
    (r : Randomness.t T) :
  (exists i, step op (Live o r) = Destroyed i)
  \/ (exists o', step op (Live o r) = Live o' r)
  \/ (Randomness.value r = None
      /\ step op (Live o r) =
         Live o (Randomness.mk (Randomness.id r) (Randomness.epoch r)
                               (Some (sha3_256 (match op with
                                                | OpSet sig => sig
                                                | _ => []
                                                end))))).
Proof.
  destruct op as [to| |sig| | |]; cbn [randomness.step].
  - right; left. now exists (Some (sui_transfer.AddressOwner to)).
  - right; left. now exists (Some sui_transfer.Shared).
  - rewrite set_cases. cbn zeta. unfold enter; cbn [self natives].
    destruct (Randomness.value r) eqn:Hv.
    + right; left. now exists o.
    + destruct (native_verify_tbls_signature _ _ sig).
      * right; right. now split.
      * right; left. now exists o.
  - left. now eexists.
  - right; left. now exists o.
  - right; left. now exists o.
Qed.

(** Once present, the value stays what it is until the object is gone. *)
Lemma step_keeps_value {T} (op : Op) (l : Life T) (v : vector_u8) :
  life_value l = Some (Some v) ->
  life_value (step op l) = Some (Some v) \/ life_value (step op l) = None.
Proof.
  destruct l as [o r|i]; [|discriminate]. cbn [life_value]. intros Hv.
  destruct (step_live_cases op o r) as [[i ->]|[[o' ->]|[Hnone _]]].
  - now right.
  - now left.
  - injection Hv as Hv. congruence.
Qed.

Lemma count_fills_cons {T} (ops : list Op) (a b : Life T) :
  count_fills (a :: history ops b) =
  ((if fills a b then 1 else 0) + count_fills (history ops b))%nat.
Proof. destruct ops; reflexivity. Qed.

Lemma life_value_None {T} (l : Life T) :
  life_value l = None -> exists i, l = Destroyed i.
Proof. destruct l; [discriminate|]. now eexists. Qed.

Lemma no_fill_after_destroy {T} (ops : list Op) (i : object.ID) :
  count_fills (history ops (@Destroyed T i)) = 0%nat.
Proof.
  induction ops as [|op ops IH]; [reflexivity|].
  cbn [randomness.history]. rewrite count_fills_cons. cbn [randomness.step]. now rewrite IH.
Qed.

Lemma no_fill_after_set {T} (ops : list Op) : forall (l : Life T) v,
  life_value l = Some (Some v) -> count_fills (history ops l) = 0%nat.
Proof.
  induction ops as [|op ops IH]; intros l v Hv; [reflexivity|].
  cbn [randomness.history]. rewrite count_fills_cons.
  assert (Hf : fills l (step op l) = false) by (unfold fills; now rewrite Hv).
  rewrite Hf.
  destruct (step_keeps_value op l v Hv) as [Hs|Hd].
  - now rewrite (IH _ v Hs).
  - apply life_value_None in Hd. destruct Hd as [i ->].
    now rewrite no_fill_after_destroy.
Qed.

(** C2: along any sequence of operations on an object, [value] goes from
    absent to present at most once, and a step taken from a present value
    leaves that same value in place for as long as the object exists. *)
Theorem value_filled_at_most_once {T} (ops : list Op) (l : Life T) :
  (count_fills (history ops l) <= 1)%nat
  /\ forall op a v,
       In a (history ops l) ->
       life_value a = Some (Some v) ->
       forall next, life_value (step op a) = Some next -> next = Some v.
Proof.
  split.
  - revert l. induction ops as [|op ops IH]; intro l; [cbn; lia|].
    cbn [randomness.history]. rewrite count_fills_cons.
    destruct (fills l (step op l)) eqn:Hf.
    + assert (exists v, life_value (step op l) = Some (Some v)) as [v Hv].
      { unfold fills in Hf.
        destruct (life_value l) as [[?|]|]; try discriminate.
        destruct (life_value (step op l)) as [[v|]|]; try discriminate.
        now exists v. }
      rewrite (no_fill_after_set ops _ v Hv). lia.
    + specialize (IH (step op l)). lia.
  - intros op a v _ Hv next Hnext.
    destruct (step_keeps_value op a v Hv) as [E|E]; congruence.
Qed.

(** C10: in every object that can arise from [new] by the module's
    operations, a present value is 32 bytes long. *)
Theorem reachable_value_32_bytes {T} (l : Life T) :
  reachable l ->
  forall o r bytes,
    l = Live o r -> value r = Some bytes -> List.length bytes = 32%nat.
Proof.
  induction 1 as [w ctx|op l Hl IH]; intros o r bs El Hv.
  - unfold randomness.new in El. destruct (object_new ctx) as [uid ctx1].
    injection El as _ <-. discriminate.
  - destruct l as [o0 r0|i]; [|discriminate].
    destruct (step_live_cases op o0 r0) as [[i E]|[[o' E]|[_ E]]];
      rewrite E in El; try discriminate.
    + injection El as _ <-. now apply (IH o0 r0).
    + injection El as _ <-. injection Hv as <-. apply sha3_256_length.
Qed.

End Properties.

(** * Further properties of the module *)

Section MoreProperties.

Variable native_verify_tbls_signature : u64 -> vector_u8 -> vector_u8 -> bool.
Variable native_tbls_sign : u64 -> vector_u8 -> vector_u8.
Variable sha3_256 : vector_u8 -> vector_u8.

(** The native signer and verifier agree. *)
Hypothesis sign_verifies : forall e msg,
  native_verify_tbls_signature e msg (native_tbls_sign e msg) = true.

(** A signature is accepted for one message only. *)
Hypothesis verify_binds_message : forall e1 e2 msg1 msg2 sig,
  native_verify_tbls_signature e1 msg1 sig = true ->
  native_verify_tbls_signature e2 msg2 sig = true ->
  msg1 = msg2.

Variable TxContext : Type.
Variable tx_context_epoch : TxContext -> u64.
Variable object_new : TxContext -> object.UID * TxContext.
Variable allocated : TxContext -> list object.ID.
Hypothesis object_new_fresh : forall ctx,
  ~ In (object.uid_id (fst (object_new ctx))) (allocated ctx).
Hypothesis object_new_records : forall ctx,
  allocated (snd (object_new ctx)) =
  object.uid_id (fst (object_new ctx)) :: allocated ctx.
Hypothesis object_new_epoch : forall ctx,
  tx_context_epoch (snd (object_new ctx)) = tx_context_epoch ctx.

Local Abbreviation set := (randomness.set native_verify_tbls_signature sha3_256).
Local Abbreviation sign := (randomness.sign native_tbls_sign).
Local Abbreviation new := (randomness.new TxContext tx_context_epoch object_new).
Local Abbreviation step := (randomness.step native_verify_tbls_signature sha3_256).
Local Abbreviation run := (randomness.run native_verify_tbls_signature sha3_256).
Local Abbreviation history :=
  (randomness.history native_verify_tbls_signature sha3_256).
Local Abbreviation reachable :=
  (randomness.reachable native_verify_tbls_signature sha3_256
                        TxContext tx_context_epoch object_new).

(** The message an object is bound to. *)
Local Abbreviation message r :=
  (to_bytes Domain (Randomness.epoch r) (object_id r)).

(** *** The message *)

Lemma to_bytes_ids_differ (e1 e2 : u64) (i1 i2 : object.ID) :
  i1 <> i2 -> to_bytes Domain e1 i1 <> to_bytes Domain e2 i2.
Proof.
  intros Hne E. apply Hne. rewrite !to_bytes_unfold in E.
  apply app_inv_head in E. apply app_same_length_inv in E.
  - destruct E as [_ Eb]. destruct i1, i2. simpl in Eb. now subst.
  - unfold bcs.to_bytes_u64. now rewrite !le_bytes_length.
Qed.

Lemma firstn_app_exact {A} (n : nat) (a b : list A) :
  List.length a = n -> firstn n (a ++ b) = a.
Proof.
  intros <-. induction a as [|x a IH]; cbn; [now destruct b|now rewrite IH].
Qed.

Lemma skipn_app_exact {A} (n : nat) (a b : list A) :
  List.length a = n -> skipn n (a ++ b) = b.
Proof.
  intros <-. induction a as [|x a IH]; cbn; [reflexivity|exact IH].
Qed.

(** X1: for 64-bit epochs, two messages are equal exactly when both the
    epoch and the id are equal. *)
Theorem to_bytes_eq_iff (e1 e2 : u64) (i1 i2 : object.ID) :
  e1 < U64_MAX_PLUS_1 -> e2 < U64_MAX_PLUS_1 ->
  (to_bytes Domain e1 i1 = to_bytes Domain e2 i2 <-> e1 = e2 /\ i1 = i2).
Proof.
  intros H1 H2. split.
  - now apply to_bytes_inj.
  - now intros [-> ->].
Qed.

(** X2: a message can be taken apart again: its first 10 bytes are the
    domain tag, the next 8 decode (least significant byte first) to the
    epoch, the rest are the id's bytes; it is 18 bytes longer than the id. *)
Theorem to_bytes_parse (e : u64) (i : object.ID) :
  e < U64_MAX_PLUS_1 ->
  firstn 10 (to_bytes Domain e i) = Domain
  /\ bcs.le_value (firstn 8 (skipn 10 (to_bytes Domain e i))) = e
  /\ skipn 18 (to_bytes Domain e i) = object.id_to_bytes i
  /\ List.length (to_bytes Domain e i)
     = (18 + List.length (object.id_to_bytes i))%nat.
Proof.
  intros He. rewrite to_bytes_unfold.
  assert (L8 : List.length (bcs.to_bytes_u64 e) = 8%nat)
    by apply le_bytes_length.
  assert (L10 : List.length Domain = 10%nat) by reflexivity.
  split; [|split; [|split]].
  - now apply firstn_app_exact.
  - rewrite (skipn_app_exact 10 Domain _ L10).
    rewrite (firstn_app_exact 8 _ _ L8).
    unfold bcs.to_bytes_u64. rewrite le_value_le_bytes.
    now apply N.mod_small.
  - rewrite app_assoc. apply skipn_app_exact.
    now rewrite length_app, L8, L10.
  - unfold object.id_to_bytes, bcs.to_bytes_address.
    rewrite !length_app, L8, L10. lia.
Qed.

(** *** set *)

Lemma set_enter {T} (sig : vector_u8) (r : Randomness.t T) :
  set sig (enter r) =
    match Randomness.value r with
    | Some _ => (Aborted EAlreadySet, enter r)
    | None =>
        if native_verify_tbls_signature (Randomness.epoch r) (message r) sig
        then (Done tt,
              mkFrame (Randomness.mk (Randomness.id r) (Randomness.epoch r)
                                     (Some (sha3_256 sig)))
                      [CallVerifyTbls (Randomness.epoch r) (message r) sig;
                       CallSha3_256 sig])
        else (Aborted EInvalidSignature,
              mkFrame r [CallVerifyTbls (Randomness.epoch r) (message r) sig])
    end.
Proof.
  rewrite set_cases. cbn zeta. unfold enter; cbn [self natives].
  destruct (Randomness.value r); [reflexivity|].
  destruct (native_verify_tbls_signature _ _ sig); reflexivity.
Qed.

(** X3: the three outcomes of [set] and exactly when each occurs: it returns
    iff the value is absent and the verifier accepts; it aborts with
    [EAlreadySet] iff a value is present; it aborts with [EInvalidSignature]
    iff the value is absent and the verifier rejects.  There is no other
    abort code. *)
Theorem set_outcome {T} (r : Randomness.t T) (sig : vector_u8) :
  (fst (set sig (enter r)) = Done tt
     <-> Randomness.value r = None
         /\ native_verify_tbls_signature (Randomness.epoch r) (message r) sig
            = true)
  /\ (fst (set sig (enter r)) = Aborted EAlreadySet
        <-> Randomness.value r <> None)
  /\ (fst (set sig (enter r)) = Aborted EInvalidSignature
        <-> Randomness.value r = None
            /\ native_verify_tbls_signature (Randomness.epoch r) (message r)
                 sig = false)
  /\ (forall code, fst (set sig (enter r)) = Aborted code ->
        code = EAlreadySet \/ code = EInvalidSignature).
Proof.
  rewrite set_enter.
  destruct (Randomness.value r) as [v|].
  - cbn [fst]. split; [|split; [|split]].
    + split; [discriminate|now intros [? _]].
    + split; [discriminate|reflexivity].
    + split; [discriminate|now intros [? _]].
    + intros code [= <-]. now left.
  - destruct (native_verify_tbls_signature _ _ sig); cbn [fst];
      (split; [|split; [|split]]).
    + split; [now split|reflexivity].
    + split; [discriminate|congruence].
    + split; [discriminate|now intros [_ ?]].
    + discriminate.
    + split; [discriminate|now intros [_ ?]].
    + split; [discriminate|congruence].
    + split; [now split|reflexivity].
    + intros code [= <-]. now right.
Qed.

(** X4: the native calls [set] makes, in order, from any starting log: none
    if a value is present; otherwise the verifier once, on the object's own
    epoch and message, followed by [sha3_256] on the signature only if the
    verifier accepted.  A rejected signature is never hashed. *)
Theorem set_native_calls {T} (f : Frame T) (sig : vector_u8) :
  natives (snd (set sig f)) =
    natives f ++
    match Randomness.value (self f) with
    | Some _ => []
    | None =>
        if native_verify_tbls_signature (Randomness.epoch (self f))
             (message (self f)) sig
        then [CallVerifyTbls (Randomness.epoch (self f)) (message (self f)) sig;
              CallSha3_256 sig]
        else [CallVerifyTbls (Randomness.epoch (self f)) (message (self f)) sig]
    end.
Proof.
  rewrite set_cases. cbn zeta.
  destruct (Randomness.value (self f)); cbn [snd].
  - now rewrite app_nil_r.
  - destruct (native_verify_tbls_signature _ _ sig); cbn [snd natives].
    + now rewrite <- app_assoc.
    + reflexivity.
Qed.

(** X5: with a signer and verifier that agree, the signature [sign] gives
    for an unset object is accepted by [set] on that object, which then
    holds its digest. *)
Theorem sign_then_set {T} (r : Randomness.t T) :
  Randomness.value r = None ->
  fst (set (sign r) (enter r)) = Done tt
  /\ value (self (snd (set (sign r) (enter r)))) = Some (sha3_256 (sign r)).
Proof.
  intros Hv.
  assert (E : native_verify_tbls_signature (Randomness.epoch r) (message r)
                (sign r) = true)
    by (unfold randomness.sign; apply sign_verifies).
  rewrite set_enter, Hv, E. now split.
Qed.

(** X6: after [set] has returned, every further [set] on the object aborts
    with [EAlreadySet], whatever the signature, and the object keeps the
    digest of the first signature. *)
Theorem set_after_set_aborts {T} (r : Randomness.t T) (sig : vector_u8)
    (f : Frame T) :
  set sig (enter r) = (Done tt, f) ->
  value (self f) = Some (sha3_256 sig)
  /\ forall sig',
       fst (set sig' (enter (self f))) = Aborted EAlreadySet
       /\ self (snd (set sig' (enter (self f)))) = self f.
Proof.
  rewrite set_enter.
  destruct (Randomness.value r); [discriminate|].
  destruct (native_verify_tbls_signature _ _ sig); [|discriminate].
  intros [= <-]. cbn [self]. split; [reflexivity|].
  intros sig'. rewrite set_enter. cbn [Randomness.value fst snd].
  now split.
Qed.

(** X7: if a signature is accepted for one message only, a signature
    accepted for one object is turned down by [set] on any unset object with
    another id: it aborts with [EInvalidSignature] and changes nothing. *)
Theorem set_rejects_other_objects_signature {T1 T2} (r1 : Randomness.t T1)
    (r2 : Randomness.t T2) (sig : vector_u8) :
  Randomness.id r1 <> Randomness.id r2 ->
  native_verify_tbls_signature (Randomness.epoch r1) (message r1) sig = true ->
  Randomness.value r2 = None ->
  fst (set sig (enter r2)) = Aborted EInvalidSignature
  /\ self (snd (set sig (enter r2))) = r2.
Proof.
  intros Hid Hok Hv. rewrite set_enter, Hv.
  destruct (native_verify_tbls_signature (Randomness.epoch r2) (message r2) sig)
    eqn:Hok2.
  - exfalso. pose proof (verify_binds_message _ _ _ _ _ Hok Hok2) as E.
    revert E. apply to_bytes_ids_differ. unfold object_id.
    intros E. apply Hid.
    destruct (Randomness.id r1), (Randomness.id r2). cbn in E. now subst.
  - now split.
Qed.

(** *** Lifetimes *)

Lemma destroy_id {T} (r : Randomness.t T) : destroy r = object_id r.
Proof. now destruct r. Qed.

(** One step from a live object: it is deleted under its own id, or it
    lives on with the same id and epoch and either the same value or, after
    an accepted [set] on an absent value, the digest of that signature. *)
Lemma step_live {T} (op : Op) (o : option sui_transfer.Owner)
    (r : Randomness.t T) :
  step op (Live o r) = Destroyed (object_id r)
  \/ exists o' r',
       step op (Live o r) = Live o' r'
       /\ Randomness.id r' = Randomness.id r
       /\ Randomness.epoch r' = Randomness.epoch r
       /\ (Randomness.value r' = Randomness.value r
           \/ exists sig,
                native_verify_tbls_signature (Randomness.epoch r) (message r)
                  sig = true
                /\ Randomness.value r' = Some (sha3_256 sig)).
Proof.
  destruct op as [to| |sig| | |]; cbn [randomness.step].
  - right. eexists _, r. repeat split; auto.
  - right. eexists _, r. repeat split; auto.
  - right. rewrite set_enter.
    destruct (Randomness.value r) eqn:Hv.
    + exists o, r. repeat split; auto.
    + destruct (native_verify_tbls_signature _ _ sig) eqn:Hok.
      * eexists o, _. cbn [self]. split; [reflexivity|].
        cbn [Randomness.id Randomness.epoch Randomness.value].
        split; [reflexivity|]. split; [reflexivity|].
        right. now exists sig.
      * exists o, r. repeat split; auto.
  - left. now rewrite destroy_id.
  - right. exists o, r. repeat split; auto.
  - right. exists o, r. repeat split; auto.
Qed.

Lemma history_destroyed {T} (ops : list Op) (i : object.ID) (a : Life T) :
  In a (history ops (Destroyed i)) -> a = Destroyed i.
Proof.
  induction ops as [|op ops IH]; cbn [randomness.history In randomness.step].
  - now intros [<-|[]].
  - intros [<-|H]; [reflexivity|now apply IH].
Qed.

(** X8: whatever is done to an object, every state it passes through has
    the id and the epoch it started with, and if it is destroyed the id
    deleted is its own, whether or not its value was set. *)
Theorem history_keeps_id_epoch {T} (ops : list Op)
    (o : option sui_transfer.Owner) (r : Randomness.t T) (a : Life T) :
  In a (history ops (Live o r)) ->
  match a with
  | Live _ r' =>
      Randomness.id r' = Randomness.id r
      /\ epoch r' = epoch r
  | Destroyed i => i = object_id r
  end.
Proof.
  revert o r. induction ops as [|op ops IH]; intros o r;
    cbn [randomness.history In].
  - intros [<-|[]]. now split.
  - intros [<-|H]; [now split|].
    destruct (step_live op o r) as [E|(o' & r' & E & Hid & Hep & _)];
      rewrite E in H.
    + apply history_destroyed in H. now subst a.
    + apply IH in H. destruct a as [oa ra|i].
      * destruct H as [H1 H2]. unfold epoch in *. split; congruence.
      * unfold object_id in *. congruence.
Qed.

Lemma run_sets_on_set {T} (sigs : list vector_u8)
    (o : option sui_transfer.Owner) (r : Randomness.t T) (v : vector_u8) :
  Randomness.value r = Some v ->
  run (map OpSet sigs) (Live o r) = Live o r.
Proof.
  intros Hv. induction sigs as [|s sigs IH]; [reflexivity|].
  cbn [map]. unfold randomness.run in *. cbn [fold_left randomness.step].
  rewrite set_enter, Hv. exact IH.
Qed.

(** X9: a series of [set] attempts on an unset object leaves it holding the
    digest of the first signature in the series that the verifier accepts;
    attempts before it leave no trace, attempts after it change nothing, and
    if none is accepted the object is as it was. *)
Theorem first_accepted_signature_wins {T} (sigs : list vector_u8)
    (o : option sui_transfer.Owner) (r : Randomness.t T) :
  Randomness.value r = None ->
  run (map OpSet sigs) (Live o r) =
    Live o
      match find (native_verify_tbls_signature (Randomness.epoch r) (message r))
                 sigs with
      | Some sig =>
          Randomness.mk (Randomness.id r) (Randomness.epoch r)
                        (Some (sha3_256 sig))
      | None => r
      end.
Proof.
  intros Hv. induction sigs as [|s sigs IH]; [reflexivity|].
  cbn [map find]. unfold randomness.run in *.
  cbn [fold_left randomness.step]. rewrite set_enter, Hv.
  destruct (native_verify_tbls_signature _ _ s).
  - cbn [self]. now apply (run_sets_on_set sigs o _ (sha3_256 s)).
  - exact IH.
Qed.

(** X10: in every object that can arise, a present value is the digest of
    a signature that the verifier accepts for that object's epoch and
    message. *)
Theorem reachable_value_verified {T} (l : Life T) :
  reachable l ->
  forall o r bytes,
    l = Live o r -> value r = Some bytes ->
    exists sig,
      bytes = sha3_256 sig
      /\ native_verify_tbls_signature (Randomness.epoch r) (message r) sig
         = true.
Proof.
  induction 1 as [w ctx|op l Hl IH]; intros o r bs El Hv.
  - unfold randomness.new in El. destruct (object_new ctx) as [uid ctx1].
    injection El as _ <-. discriminate.
  - destruct l as [o0 r0|i]; [|discriminate].
    destruct (step_live op o0 r0)
      as [E|(o' & r' & E & Hid & Hep & Hval)]; rewrite E in El;
      [discriminate|].
    injection El as _ <-. unfold value in Hv.
    assert (Hmsg : message r' = message r0)
      by (unfold object_id; now rewrite Hid, Hep).
    rewrite Hmsg, Hep.
    destruct Hval as [Hsame|(sig & Hok & Hnew)].
    + apply (IH o0 r0 bs eq_refl). unfold value. congruence.
    + exists sig. split; [congruence|exact Hok].
Qed.

(** *** new *)

(** X11: two objects created one after the other in the same context have
    different ids, and so are bound to different messages. *)
Theorem new_twice_distinct {T1 T2} (w1 : T1) (w2 : T2)
    (ctx ctx1 ctx2 : TxContext) (r1 : Randomness.t T1) (r2 : Randomness.t T2) :
  new w1 ctx = (r1, ctx1) ->
  new w2 ctx1 = (r2, ctx2) ->
  Randomness.id r1 <> Randomness.id r2 /\ message r1 <> message r2.
Proof.
  unfold randomness.new. intros E1 E2.
  destruct (object_new ctx) as [u1 c1] eqn:N1. injection E1 as <- <-.
  destruct (object_new c1) as [u2 c2] eqn:N2. injection E2 as <- _.
  pose proof (object_new_records ctx) as Hrec. rewrite N1 in Hrec.
  pose proof (object_new_fresh c1) as Hfresh. rewrite N2 in Hfresh.
  cbn [fst snd] in *. rewrite Hrec in Hfresh.
  assert (Hne : object.uid_id u1 <> object.uid_id u2).
  { intros E. apply Hfresh. left. exact E. }
  split.
  - cbn [Randomness.id]. congruence.
  - now apply to_bytes_ids_differ.
Qed.

(** X12: an object just returned by [new] accepts a signature verified for
    the epoch of the context it was created in and for its message; [set]
    then returns and the object holds the digest. *)
Theorem new_then_set {T} (w : T) (ctx ctx' : TxContext) (r : Randomness.t T)
    (sig : vector_u8) :
  new w ctx = (r, ctx') ->
  native_verify_tbls_signature (tx_context_epoch ctx) (message r) sig = true ->
  fst (set sig (enter r)) = Done tt
  /\ value (self (snd (set sig (enter r)))) = Some (sha3_256 sig)
  /\ epoch (self (snd (set sig (enter r)))) = tx_context_epoch ctx.
Proof.
  unfold randomness.new. intros E Hok.
  pose proof (object_new_epoch ctx) as Hep.
  destruct (object_new ctx) as [uid c]. injection E as <- <-.
  cbn [snd] in Hep. rewrite set_enter.
  cbn [Randomness.value Randomness.epoch] in *.
  rewrite Hep in *. rewrite Hok. cbn. auto.
Qed.

End MoreProperties.

(** * The scenario, run on the fake signer and runtime *)

Lemma fake_sha3_256_length (data : vector_u8) :
  List.length (fake.sha3_256 data) = 32%nat.
Proof.
  unfold fake.sha3_256.
  rewrite length_firstn, length_app, repeat_length. lia.
Qed.

Lemma fake_object_new_fresh (ctx : fake.TxContext) :
  ~ In (object.uid_id (fst (fake.object_new ctx))) (fake.ids_created ctx).
Proof.
  cbn [fake.object_new fst object.uid_id]. intro Hin.
  apply (in_map (fun i => List.length (object.bytes i))) in Hin.
  cbn [object.bytes] in Hin. unfold fake.fresh_address in Hin.
  rewrite repeat_length in Hin.
  set (lens := map (fun i => List.length (object.bytes i)) (fake.ids_created ctx))
    in *.
  pose proof (proj1 (list_max_le lens (list_max lens)) (Nat.le_refl _)) as Hall.
  rewrite Forall_forall in Hall. apply Hall in Hin. lia.
Qed.

Lemma fake_object_new_records (ctx : fake.TxContext) :
  fake.ids_created (snd (fake.object_new ctx)) =
  object.uid_id (fst (fake.object_new ctx)) :: fake.ids_created ctx.
Proof. reflexivity. Qed.

Lemma fake_object_new_epoch (ctx : fake.TxContext) :
  fake.epoch (snd (fake.object_new ctx)) = fake.epoch ctx.
Proof. reflexivity. Qed.

(** The bytes of the message for id 42 at epoch 7. *)
Example message_42_7 :
  scenario.message =
    [x72; x61; x6e; x64; x6f; x6d; x6e; x65; x73; x73]
    ++ [x07; x00; x00; x00; x00; x00; x00; x00]
    ++ object.bytes fake.id42.
Proof. reflexivity. Qed.

(** C3 (as stated) fails for id 42 at epoch 7: the epoch is not laid out
    most significant byte first. *)
Lemma to_bytes_not_big_endian :
  to_bytes Domain 7 fake.id42 <>
  byte_string "randomness" ++ wire.be64 7 ++ object.id_to_bytes fake.id42.
Proof. vm_compute. discriminate. Qed.

Lemma to_bytes_distinct_ids_witness :
  Randomness.id scenario.O <> Randomness.id scenario.O2
  /\ to_bytes Domain (Randomness.epoch scenario.O) (object_id scenario.O) <>
     to_bytes Domain (Randomness.epoch scenario.O2) (object_id scenario.O2).
Proof.
  assert (H : Randomness.id scenario.O <> Randomness.id scenario.O2)
    by (vm_compute; discriminate).
  split; [exact H|].
  exact (to_bytes_distinct_ids scenario.O scenario.O2 H).
Defined.

Lemma set_stores_digest_witness :
  Randomness.value scenario.O = None
  /\ fake.verify_tbls_signature (Randomness.epoch scenario.O)
       (to_bytes Domain (Randomness.epoch scenario.O) (object_id scenario.O))
       scenario.sig = true
  /\ fst (set fake.verify_tbls_signature fake.sha3_256 scenario.sig
            (enter scenario.O)) = Done tt
  /\ value (self (snd (set fake.verify_tbls_signature fake.sha3_256
                         scenario.sig (enter scenario.O))))
     = Some (fake.sha3_256 scenario.sig).
Proof.
  split; [reflexivity|]. split; [vm_compute; reflexivity|].
  destruct (set_stores_digest fake.verify_tbls_signature fake.sha3_256
              fake_sha3_256_length scenario.O scenario.sig)
    as (Hdone & Hval & _).
  - reflexivity.
  - vm_compute; reflexivity.
  - split; assumption.
Defined.

Lemma set_twice_aborts_witness :
  Randomness.value scenario.O_set = Some (fake.sha3_256 scenario.sig)
  /\ fst (set fake.verify_tbls_signature fake.sha3_256 scenario.sig
            (enter scenario.O_set)) = Aborted EAlreadySet
  /\ self (snd (set fake.verify_tbls_signature fake.sha3_256 scenario.sig
                  (enter scenario.O_set))) = scenario.O_set.
Proof.
  split; [reflexivity|].
  destruct (set_twice_aborts fake.verify_tbls_signature fake.sha3_256
              scenario.O_set scenario.sig (fake.sha3_256 scenario.sig))
    as (Habort & Hsame & _).
  - reflexivity.
  - split; assumption.
Defined.

Lemma set_rejected_signature_witness :
  Randomness.value scenario.O2 = None
  /\ fake.verify_tbls_signature (Randomness.epoch scenario.O2)
       (to_bytes Domain (Randomness.epoch scenario.O2) (object_id scenario.O2))
       scenario.sig = false
  /\ fst (set fake.verify_tbls_signature fake.sha3_256 scenario.sig
            (enter scenario.O2)) = Aborted EInvalidSignature
  /\ self (snd (set fake.verify_tbls_signature fake.sha3_256 scenario.sig
                  (enter scenario.O2))) = scenario.O2.
Proof.
  split; [reflexivity|]. split; [vm_compute; reflexivity|].
  destruct (set_rejected_signature fake.verify_tbls_signature fake.sha3_256
              scenario.O2 scenario.sig)
    as (Habort & Hsame & _).
  - reflexivity.
  - vm_compute; reflexivity.
  - split; assumption.
Defined.

Lemma set_checks_value_first_witness :
  Randomness.value (self (enter scenario.O_set))
    = Some (fake.sha3_256 scenario.sig)
  /\ fake.verify_tbls_signature (Randomness.epoch scenario.O_set)
       (to_bytes Domain (Randomness.epoch scenario.O_set)
          (object_id scenario.O_set)) [xff] = false
  /\ fst (set fake.verify_tbls_signature fake.sha3_256 [xff]
            (enter scenario.O_set)) = Aborted EAlreadySet
  /\ natives (snd (set fake.verify_tbls_signature fake.sha3_256 [xff]
                     (enter scenario.O_set))) = [].
Proof.
  split; [reflexivity|]. split; [vm_compute; reflexivity|].
  destruct (set_checks_value_first fake.verify_tbls_signature fake.sha3_256
              (enter scenario.O_set) [xff] (fake.sha3_256 scenario.sig))
    as (Habort & Hquiet & _).
  - reflexivity.
  - split; assumption.
Defined.

Lemma new_fresh_unset_witness :
  exists r ctx',
    new fake.TxContext fake.epoch fake.object_new fake.WITNESS scenario.ctx7
      = (r, ctx')
    /\ ~ In (object_id r) (fake.ids_created scenario.ctx7)
    /\ fake.ids_created ctx' = [object_id r]
    /\ epoch r = 7
    /\ value r = None.
Proof.
  destruct (new_fresh_unset fake.TxContext fake.epoch fake.object_new
              fake.ids_created fake_object_new_fresh fake_object_new_records
              fake_object_new_epoch fake.WITNESS scenario.ctx7)
    as (r & ctx' & Hnew & _ & Hfresh & Hrec & Hep & Hval).
  exists r, ctx'. auto.
Defined.

Lemma value_filled_at_most_once_witness :
  (count_fills
     (history fake.verify_tbls_signature fake.sha3_256 scenario.lifetime
        (Live None scenario.created)) <= 1)%nat
  /\ count_fills
       (history fake.verify_tbls_signature fake.sha3_256 scenario.lifetime
          (Live None scenario.created)) = 1%nat.
Proof.
  split; [|vm_compute; reflexivity].
  exact (proj1 (value_filled_at_most_once fake.verify_tbls_signature
                  fake.sha3_256 scenario.lifetime (Live None scenario.created))).
Defined.

Lemma reachable_value_32_bytes_witness :
  reachable fake.verify_tbls_signature fake.sha3_256
    fake.TxContext fake.epoch fake.object_new scenario.transferred_then_set
  /\ exists o r bytes,
       scenario.transferred_then_set = Live o r
       /\ value r = Some bytes
       /\ List.length bytes = 32%nat.
Proof.
  assert (Hl : reachable fake.verify_tbls_signature fake.sha3_256
                 fake.TxContext fake.epoch fake.object_new
                 scenario.transferred_then_set).
  { unfold scenario.transferred_then_set. apply reach_step, reach_step.
    exact (reach_new fake.verify_tbls_signature fake.sha3_256
             fake.TxContext fake.epoch fake.object_new fake.WITNESS
             scenario.ctx7). }
  split; [exact Hl|].
  exists (Some (sui_transfer.AddressOwner fake.alice)),
    (Randomness.mk (Randomness.id scenario.created)
       (Randomness.epoch scenario.created)
       (Some (fake.sha3_256 scenario.created_sig))),
    (fake.sha3_256 scenario.created_sig).
  assert (El : scenario.transferred_then_set =
               Live (Some (sui_transfer.AddressOwner fake.alice))
                 (Randomness.mk (Randomness.id scenario.created)
                    (Randomness.epoch scenario.created)
                    (Some (fake.sha3_256 scenario.created_sig))))
    by (vm_compute; reflexivity).
  split; [exact El|]. split; [reflexivity|].
  exact (reachable_value_32_bytes fake.verify_tbls_signature fake.sha3_256
           fake_sha3_256_length fake.TxContext fake.epoch fake.object_new
           scenario.transferred_then_set Hl _ _ _ El eq_refl).
Defined.

(** * The further properties on the scenario *)

Lemma bytes_eqb_eq (a b : vector_u8) : fake.bytes_eqb a b = true -> a = b.
Proof.
  revert b. induction a as [|x a IH]; intros [|y b]; cbn; try discriminate.
  - reflexivity.
  - intros H. apply andb_prop in H. destruct H as [Hxy Hab].
    apply Byte.byte_dec_bl in Hxy. subst y. now rewrite (IH b Hab).
Qed.

Lemma bytes_eqb_refl (a : vector_u8) : fake.bytes_eqb a a = true.
Proof.
  induction a as [|x a IH]; cbn; [reflexivity|].
  now rewrite (Byte.byte_dec_lb eq_refl), IH.
Qed.

Lemma fake_sign_verifies (e : u64) (msg : vector_u8) :
  fake.verify_tbls_signature e msg (fake.tbls_sign e msg) = true.
Proof. apply bytes_eqb_refl. Qed.

Lemma fake_verify_binds_message (e1 e2 : u64) (msg1 msg2 sig : vector_u8) :
  fake.verify_tbls_signature e1 msg1 sig = true ->
  fake.verify_tbls_signature e2 msg2 sig = true ->
  msg1 = msg2.
Proof.
  unfold fake.verify_tbls_signature, fake.tbls_sign. intros H1 H2.
  apply bytes_eqb_eq in H1. apply bytes_eqb_eq in H2. rewrite H1 in H2.
  apply app_same_length_inv in H2; [tauto|].
  unfold bcs.to_bytes_u64. now rewrite !le_bytes_length.
Qed.

Lemma to_bytes_eq_iff_witness :
  7 < U64_MAX_PLUS_1
  /\ (to_bytes Domain 7 fake.id42 = to_bytes Domain 7 fake.id43
      <-> 7 = 7 /\ fake.id42 = fake.id43).
Proof.
  assert (H : 7 < U64_MAX_PLUS_1) by (vm_compute; reflexivity).
  split; [exact H|].
  exact (to_bytes_eq_iff 7 7 fake.id42 fake.id43 H H).
Defined.

Lemma to_bytes_parse_witness :
  7 < U64_MAX_PLUS_1
  /\ firstn 10 scenario.message = Domain
  /\ bcs.le_value (firstn 8 (skipn 10 scenario.message)) = 7
  /\ skipn 18 scenario.message = object.id_to_bytes fake.id42
  /\ List.length scenario.message = 38%nat.
Proof.
  assert (H : 7 < U64_MAX_PLUS_1) by (vm_compute; reflexivity).
  split; [exact H|].
  destruct (to_bytes_parse 7 fake.id42 H) as (H1 & H2 & H3 & H4).
  repeat split; assumption.
Defined.

Lemma sign_then_set_witness :
  Randomness.value scenario.O = None
  /\ fst (set fake.verify_tbls_signature fake.sha3_256
            (sign fake.tbls_sign scenario.O) (enter scenario.O)) = Done tt
  /\ value (self (snd (set fake.verify_tbls_signature fake.sha3_256
                         (sign fake.tbls_sign scenario.O) (enter scenario.O))))
     = Some (fake.sha3_256 (sign fake.tbls_sign scenario.O)).
Proof.
  split; [reflexivity|].
  exact (sign_then_set fake.verify_tbls_signature fake.tbls_sign fake.sha3_256
           fake_sign_verifies scenario.O eq_refl).
Defined.

Lemma set_after_set_aborts_witness :
  set fake.verify_tbls_signature fake.sha3_256 scenario.sig (enter scenario.O)
    = (Done tt,
       mkFrame scenario.O_set
         [CallVerifyTbls 7 scenario.message scenario.sig;
          CallSha3_256 scenario.sig])
  /\ fst (set fake.verify_tbls_signature fake.sha3_256 [xff]
            (enter scenario.O_set)) = Aborted EAlreadySet.
Proof.
  assert (H : set fake.verify_tbls_signature fake.sha3_256 scenario.sig
                (enter scenario.O)
              = (Done tt,
                 mkFrame scenario.O_set
                   [CallVerifyTbls 7 scenario.message scenario.sig;
                    CallSha3_256 scenario.sig]))
    by (vm_compute; reflexivity).
  split; [exact H|].
  exact (proj1 (proj2 (set_after_set_aborts fake.verify_tbls_signature
                         fake.sha3_256 scenario.O scenario.sig _ H) [xff])).
Defined.

Lemma set_rejects_other_objects_signature_witness :
  Randomness.id scenario.O <> Randomness.id scenario.O2
  /\ fake.verify_tbls_signature (Randomness.epoch scenario.O)
       (to_bytes Domain (Randomness.epoch scenario.O) (object_id scenario.O))
       scenario.sig = true
  /\ Randomness.value scenario.O2 = None
  /\ fst (set fake.verify_tbls_signature fake.sha3_256 scenario.sig
            (enter scenario.O2)) = Aborted EInvalidSignature.
Proof.
  assert (Hid : Randomness.id scenario.O <> Randomness.id scenario.O2)
    by (vm_compute; discriminate).
  assert (Hok : fake.verify_tbls_signature (Randomness.epoch scenario.O)
                  (to_bytes Domain (Randomness.epoch scenario.O)
                     (object_id scenario.O)) scenario.sig = true)
    by (vm_compute; reflexivity).
  split; [exact Hid|]. split; [exact Hok|]. split; [reflexivity|].
  exact (proj1 (set_rejects_other_objects_signature
                  fake.verify_tbls_signature fake.sha3_256
                  fake_verify_binds_message scenario.O scenario.O2
                  scenario.sig Hid Hok eq_refl)).
Defined.

Lemma history_keeps_id_epoch_witness :
  In scenario.transferred_then_set
     (history fake.verify_tbls_signature fake.sha3_256
        [OpTransfer fake.alice; OpSet scenario.created_sig]
        (Live None scenario.created))
  /\ match scenario.transferred_then_set with
     | Live _ r' =>
         Randomness.id r' = Randomness.id scenario.created
         /\ epoch r' = epoch scenario.created
     | Destroyed i => i = object_id scenario.created
     end.
Proof.
  assert (H : In scenario.transferred_then_set
                (history fake.verify_tbls_signature fake.sha3_256
                   [OpTransfer fake.alice; OpSet scenario.created_sig]
                   (Live None scenario.created)))
    by (right; right; left; reflexivity).
  split; [exact H|].
  exact (history_keeps_id_epoch fake.verify_tbls_signature fake.sha3_256
           _ None scenario.created _ H).
Defined.

Lemma first_accepted_signature_wins_witness :
  Randomness.value scenario.O = None
  /\ run fake.verify_tbls_signature fake.sha3_256
       (map OpSet scenario.attempts) (Live None scenario.O)
     = Live None scenario.O_set.
Proof.
  split; [reflexivity|].
  rewrite (first_accepted_signature_wins fake.verify_tbls_signature
             fake.sha3_256 scenario.attempts None scenario.O eq_refl).
  vm_compute. reflexivity.
Defined.

Lemma reachable_value_verified_witness :
  reachable fake.verify_tbls_signature fake.sha3_256
    fake.TxContext fake.epoch fake.object_new scenario.transferred_then_set
  /\ exists sig,
       fake.sha3_256 scenario.created_sig = fake.sha3_256 sig
       /\ fake.verify_tbls_signature (Randomness.epoch scenario.created)
            (to_bytes Domain (Randomness.epoch scenario.created)
               (object_id scenario.created)) sig = true.
Proof.
  assert (Hl : reachable fake.verify_tbls_signature fake.sha3_256
                 fake.TxContext fake.epoch fake.object_new
                 scenario.transferred_then_set).
  { unfold scenario.transferred_then_set. apply reach_step, reach_step.
    exact (reach_new fake.verify_tbls_signature fake.sha3_256
             fake.TxContext fake.epoch fake.object_new fake.WITNESS
             scenario.ctx7). }
  split; [exact Hl|].
  exact (reachable_value_verified fake.verify_tbls_signature fake.sha3_256
           fake.TxContext fake.epoch fake.object_new
           scenario.transferred_then_set Hl
           (Some (sui_transfer.AddressOwner fake.alice))
           (Randomness.mk (Randomness.id scenario.created)
              (Randomness.epoch scenario.created)
              (Some (fake.sha3_256 scenario.created_sig)))
           (fake.sha3_256 scenario.created_sig) eq_refl eq_refl).
Defined.

Lemma new_twice_distinct_witness :
  new fake.TxContext fake.epoch fake.object_new fake.WITNESS scenario.ctx7
    = (scenario.created, scenario.ctx7')
  /\ new fake.TxContext fake.epoch fake.object_new fake.WITNESS scenario.ctx7'
     = (scenario.created',
        snd (new fake.TxContext fake.epoch fake.object_new fake.WITNESS
               scenario.ctx7'))
  /\ Randomness.id scenario.created <> Randomness.id scenario.created'.
Proof.
  split; [reflexivity|]. split; [reflexivity|].
  exact (proj1 (new_twice_distinct fake.TxContext fake.epoch fake.object_new
                  fake.ids_created fake_object_new_fresh
                  fake_object_new_records fake.WITNESS fake.WITNESS
                  scenario.ctx7 scenario.ctx7' _ scenario.created
                  scenario.created' eq_refl eq_refl)).
Defined.

Lemma new_then_set_witness :
  new fake.TxContext fake.epoch fake.object_new fake.WITNESS scenario.ctx7
    = (scenario.created, scenario.ctx7')
  /\ fake.verify_tbls_signature (fake.epoch scenario.ctx7)
       (to_bytes Domain (Randomness.epoch scenario.created)
          (object_id scenario.created)) scenario.created_sig = true
  /\ fst (set fake.verify_tbls_signature fake.sha3_256 scenario.created_sig
            (enter scenario.created)) = Done tt.
Proof.
  assert (Hok : fake.verify_tbls_signature (fake.epoch scenario.ctx7)
                  (to_bytes Domain (Randomness.epoch scenario.created)
                     (object_id scenario.created)) scenario.created_sig = true)
    by (vm_compute; reflexivity).
  split; [reflexivity|]. split; [exact Hok|].
  exact (proj1 (new_then_set fake.verify_tbls_signature fake.sha3_256
                  fake.TxContext fake.epoch fake.object_new
                  fake_object_new_epoch fake.WITNESS scenario.ctx7
                  scenario.ctx7' scenario.created scenario.created_sig
                  eq_refl Hok)).
Defined.
